(** * markus.testing.MetricsMock: a shallow embedding and its properties

    The Python class [MetricsMock] of [markus/testing.py] records metrics
    events as tuples [(fun_name, stat, value, tags)] in [self.records], can be
    installed as the process-wide metrics backend through a [with] block, and
    offers [get_records], [filter_records], [has_record] and [clear_records]
    to query what was recorded.

    Python objects live in a store indexed by object identity; methods are
    computations in a state-and-exception monad over that store. *)

From Stdlib Require Import ZArith String Ascii List.
From stdpp Require Import base tactics option list sorting functions strings.

(** ** Python values that occur in records *)

(** Modelled from the spec: the constants [INCR], [GAUGE], [TIMING] and
    [HISTOGRAM] are imported from the package [markus], which is not part of
    the sources; the spec describes them as a closed enumeration of the four
    metric operations. *)
Inductive fun_name := INCR | GAUGE | TIMING | HISTOGRAM.

(** A metric value: Python does not constrain it, the record keeps whatever
    the caller passed: [None], an integer, a string, or [float('nan')], the
    value that is not equal to itself.  Other floats are not modelled. *)
Inductive value := VNone | VInt (z : Z) | VStr (s : string) | VNaN.
Arguments VInt z%_Z.

(** [a == b] on these values: integers and strings by content, [None] with
    itself, [nan] with nothing, values of different types never. *)
Definition py_eq (a b : value) : bool :=
  match a, b with
  | VNone, VNone => true
  | VInt x, VInt y => (x =? y)%Z
  | VStr s, VStr t => bool_decide (s = t)
  | _, _ => false
  end.

#[global] Instance fun_name_eq_dec : EqDecision fun_name.
Proof. solve_decision. Defined.

#[global] Instance value_eq_dec : EqDecision value.
Proof. solve_decision. Defined.

(** A tag argument: [None] or a list of strings. *)
Definition tag_list := option (list string).

(** The tuple [(fun_name, stat, value, tags)] built by [_add_record];
    the fields are [record[0]] to [record[3]]. *)
Record MetricsRecord := mkRecord {
  rec_fun_name : fun_name;
  rec_stat : string;
  rec_value : value;
  rec_tags : tag_list
}.

#[global] Instance MetricsRecord_eq_dec : EqDecision MetricsRecord.
Proof. solve_decision. Defined.

(** ** The object store *)

(** Object identity of a [MetricsMock] instance. *)
Definition ref := nat.

(** The instance attributes of a [MetricsMock]. *)
Record MetricsMock := mkMock { records : list MetricsRecord }.

(** The store: the attributes of every [MetricsMock] instance, and the
    module-level slot of [markus.main] that holds the overriding backends. *)
Record World := mkWorld {
  mocks : ref → MetricsMock;
  override_backends : option (list ref)
}.

Inductive exn := TypeError | Exception (msg : string).

#[global] Instance exn_eq_dec : EqDecision exn.
Proof. solve_decision. Defined.

(** ** Computations: state and exceptions *)

Inductive result (A : Type) :=
  | Returns (a : A) (w : World)
  | Raises (e : exn) (w : World).
Arguments Returns {A} a w.
Arguments Raises {A} e w.

Definition M (A : Type) : Type := World → result A.

#[global] Instance M_ret : MRet M := λ A a w, Returns a w.

#[global] Instance M_bind : MBind M := λ A B k c w,
  match c w with
  | Returns a w' => k a w'
  | Raises e w' => Raises e w'
  end.

Definition raise {A} (e : exn) : M A := λ w, Raises e w.

(** Run [c]; continue with [ok] on its result, with [handler] on its
    exception. *)
Definition try_ {A B} (c : M A) (ok : A → M B) (handler : exn → M B) : M B :=
  λ w, match c w with
       | Returns a w' => ok a w'
       | Raises e w' => handler e w'
       end.

(** Reading and writing [self.records]. *)
Definition get_attr_records (self : ref) : M (list MetricsRecord) :=
  λ w, Returns (records (mocks w self)) w.

Definition set_attr_records (self : ref) (rs : list MetricsRecord) : M unit :=
  λ w, Returns tt (mkWorld (<[self := mkMock rs]> (mocks w)) (override_backends w)).

(** Modelled from the spec: [markus.main._override_metrics] is not part of
    the sources; the spec describes it as the single hook that sets the active
    backend of the process to its argument, a list of backends or [None]. *)
Definition _override_metrics (metrics : option (list ref)) : M unit :=
  λ w, Returns tt (mkWorld (mocks w) metrics).

(** ** The order of strings and [sorted] *)

(** [a <= b] on Python strings: lexicographic order of the characters. *)
Definition str_le (a b : string) : Prop := String.leb a b = true.

#[global] Instance str_le_dec : RelDecision str_le.
Proof. intros a b. unfold str_le. apply _. Defined.

(** The built-in [sorted] on a tag argument: [None] is not iterable. *)
Definition sorted (x : tag_list) : M (list string) :=
  match x with
  | None => raise TypeError
  | Some l => mret (merge_sort str_le l)
  end.

(** ** The class [MetricsMock] *)

Definition __init__ (self : ref) : M unit :=
  set_attr_records self [].

Definition _add_record (self : ref) (fn : fun_name) (stat : string)
    (v : value) (tags : tag_list) : M unit :=
  rs ← get_attr_records self;
  set_attr_records self (rs ++ [mkRecord fn stat v tags]).

(** A parameter with a default: [None] stands for an omitted argument. *)
Definition with_default {A} (d : A) (arg : option A) : A :=
  match arg with Some a => a | None => d end.

Definition incr (self : ref) (stat : string) (v : option value)
    (tags : tag_list) : M unit :=
  _add_record self INCR stat (with_default (VInt 1) v) tags.

Definition gauge (self : ref) (stat : string) (v : value)
    (tags : tag_list) : M unit :=
  _add_record self GAUGE stat v tags.

Definition timing (self : ref) (stat : string) (v : value)
    (tags : tag_list) : M unit :=
  _add_record self TIMING stat v tags.

Definition histogram (self : ref) (stat : string) (v : value)
    (tags : tag_list) : M unit :=
  _add_record self HISTOGRAM stat v tags.

Definition __enter__ (self : ref) : M ref :=
  _ ← set_attr_records self [];
  _ ← _override_metrics (Some [self]);
  mret self.

(** [__exit__] ignores its arguments [exc_type], [exc_value] and
    [traceback], here the exception [exc] of the body if there is one; it has
    no [return], so its result is [None]. *)
Definition __exit__ (self : ref) (exc : option exn) : M value :=
  _ ← _override_metrics None;
  mret VNone.

(** [get_records] returns [self.records]; the model returns its contents at
    the time of the call. *)
Definition get_records (self : ref) : M (list MetricsRecord) :=
  get_attr_records self.

(** The four criteria of [filter_records] and [has_record]; each defaults to
    [None].  The criterion [value] is compared with values that may
    themselves be [None], so it is a [value]: [VNone] is the omitted
    criterion. *)
Record criteria := mkCriteria {
  c_fun_name : option fun_name;
  c_stat : option string;
  c_value : value;
  c_tags : tag_list
}.

Definition no_criteria : criteria := mkCriteria None None VNone None.

(** [a and b]: [b] is evaluated only when [a] is true. *)
Definition and_ (a b : M bool) : M bool :=
  a ≫= λ x : bool, if x then b else mret false.

Definition match_fun_name (c : criteria) (record_fun_name : fun_name) : M bool :=
  mret (match c_fun_name c with
        | None => true
        | Some f => bool_decide (f = record_fun_name)
        end).

Definition match_stat (c : criteria) (record_stat : string) : M bool :=
  mret (match c_stat c with
        | None => true
        | Some s => bool_decide (s = record_stat)
        end).

Definition match_value (c : criteria) (record_value : value) : M bool :=
  mret (match c_value c with
        | VNone => true
        | v => py_eq v record_value
        end).

Definition match_tags (c : criteria) (record_tags : tag_list) : M bool :=
  match c_tags c with
  | None => mret true
  | Some _ =>
      a ← sorted (c_tags c);
      b ← sorted record_tags;
      mret (bool_decide (a = b))
  end.

(** The condition of the list comprehension in [filter_records]. *)
Definition matches (c : criteria) (record : MetricsRecord) : M bool :=
  and_ (match_fun_name c (rec_fun_name record))
    (and_ (match_stat c (rec_stat record))
       (and_ (match_value c (rec_value record))
          (match_tags c (rec_tags record)))).

(** [[record for record in rs if cond(record)]]. *)
Fixpoint comprehension (cond : MetricsRecord → M bool)
    (rs : list MetricsRecord) : M (list MetricsRecord) :=
  match rs with
  | [] => mret []
  | record :: rs' =>
      cond record ≫= λ b : bool,
      rest ← comprehension cond rs';
      mret (if b then record :: rest else rest)
  end.

Definition filter_records (self : ref) (c : criteria) : M (list MetricsRecord) :=
  rs ← get_records self;
  comprehension (matches c) rs.

(** [bool(l)] for a list. *)
Definition bool_of_list {A} (l : list A) : bool :=
  match l with [] => false | _ => true end.

Definition has_record (self : ref) (c : criteria) : M bool :=
  l ← filter_records self c;
  mret (bool_of_list l).

Definition clear_records (self : ref) : M unit :=
  set_attr_records self [].

(** Truth value of what [__exit__] returned. *)
Definition truthy (v : value) : bool :=
  match v with
  | VNone => false
  | VInt z => negb (z =? 0)%Z
  | VStr s => negb (bool_decide (s = EmptyString))
  | VNaN => true
  end.

(** [with mm as x: body(x)]: [__enter__], the body, then [__exit__] on every
    path; an exception of the body is swallowed only when [__exit__] returns
    a true value. *)
Definition with_ (self : ref) (body : ref → M unit) : M unit :=
  x ← __enter__ self;
  try_ (body x)
    (λ _, _ ← __exit__ self None; mret tt)
    (λ e, r ← __exit__ self (Some e);
          if truthy r then mret tt else raise e).

(** ** Sequences of emission calls *)

(** One call of an emission method, with its arguments. *)
Inductive call :=
  | CallIncr (stat : string) (v : option value) (tags : tag_list)
  | CallGauge (stat : string) (v : value) (tags : tag_list)
  | CallTiming (stat : string) (v : value) (tags : tag_list)
  | CallHistogram (stat : string) (v : value) (tags : tag_list).

Definition emit (self : ref) (c : call) : M unit :=
  match c with
  | CallIncr stat v tags => incr self stat v tags
  | CallGauge stat v tags => gauge self stat v tags
  | CallTiming stat v tags => timing self stat v tags
  | CallHistogram stat v tags => histogram self stat v tags
  end.

(** The calls of [cs], one after the other. *)
Fixpoint emit_all (self : ref) (cs : list call) : M unit :=
  match cs with
  | [] => mret tt
  | c :: cs' => _ ← emit self c; emit_all self cs'
  end.

(** The tuple a call is expected to leave in [self.records]. *)
Definition record_of (c : call) : MetricsRecord :=
  match c with
  | CallIncr stat v tags => mkRecord INCR stat (with_default (VInt 1) v) tags
  | CallGauge stat v tags => mkRecord GAUGE stat v tags
  | CallTiming stat v tags => mkRecord TIMING stat v tags
  | CallHistogram stat v tags => mkRecord HISTOGRAM stat v tags
  end.

(** The store a computation leaves behind, whether it returned or raised. *)
Definition world_of {A} (r : result A) : World :=
  match r with
  | Returns _ w => w
  | Raises _ w => w
  end.

(** A store in which every [MetricsMock] is as [__init__] leaves it and no
    backend is overridden. *)
Definition fresh_world : World := mkWorld (λ _, mkMock []) None.

(** The decision of the criteria [fun_name], [stat] and [value] on a record:
    the three conditions evaluated before [match_tags]. *)
Definition selects_head (c : criteria) (r : MetricsRecord) : bool :=
  match c_fun_name c with None => true | Some f => bool_decide (f = rec_fun_name r) end
  && match c_stat c with None => true | Some s => bool_decide (s = rec_stat r) end
  && match c_value c with VNone => true | v => py_eq v (rec_value r) end.

(** The decision of the criterion [tags] on a record whose tags are a list. *)
Definition selects_tags (c : criteria) (r : MetricsRecord) : bool :=
  match c_tags c, rec_tags r with
  | None, _ => true
  | Some ts, Some rts => bool_decide (merge_sort str_le ts = merge_sort str_le rts)
  | Some _, None => false
  end.

Definition selects (c : criteria) (r : MetricsRecord) : bool :=
  selects_head c r && selects_tags c r.

(** The records on which the condition of the comprehension raises: those
    that reach [match_tags] with tags [None] while [tags] is supplied. *)
Definition faults (c : criteria) (r : MetricsRecord) : bool :=
  selects_head c r
  && match c_tags c, rec_tags r with
     | Some _, None => true
     | _, _ => false
     end.

(** The store after [self.records = rs]. *)
Definition assign_records (self : ref) (rs : list MetricsRecord) (w : World) : World :=
  mkWorld (<[self := mkMock rs]> (mocks w)) (override_backends w).

(** A store [w'] differs from [w] at most in the records of [self], which
    are [rs] in [w']. *)
Definition only_records_changed (self : ref) (rs : list MetricsRecord)
    (w w' : World) : Prop :=
  records (mocks w' self) = rs
  ∧ override_backends w' = override_backends w
  ∧ ∀ other, other ≠ self → mocks w' other = mocks w other.

(** ** Standard output *)

(** [print_records] writes to standard output, which is not part of the
    store; what has been written is passed in and out explicitly, as the
    sequence of tuples handed to [print], one line for each. *)
Definition print (stdout : list MetricsRecord) (record : MetricsRecord)
    : M (list MetricsRecord) :=
  mret (stdout ++ [record]).

(** [for record in rs: print(record)]. *)
Fixpoint for_print (rs : list MetricsRecord) (stdout : list MetricsRecord)
    : M (list MetricsRecord) :=
  match rs with
  | [] => mret stdout
  | record :: rs' => out ← print stdout record; for_print rs' out
  end.

Definition print_records (self : ref) (stdout : list MetricsRecord)
    : M (list MetricsRecord) :=
  rs ← get_records self;
  for_print rs stdout.

(** ** Reading criteria as propositions *)

(** A record meets the criteria [fun_name], [stat] and [value]: each of them
    is omitted or equal to the field of the record, the value under [==]. *)
Definition meets_head (c : criteria) (r : MetricsRecord) : Prop :=
  (c_fun_name c = None ∨ c_fun_name c = Some (rec_fun_name r))
  ∧ (c_stat c = None ∨ c_stat c = Some (rec_stat r))
  ∧ (c_value c = VNone ∨ py_eq (c_value c) (rec_value r) = true).

(** A record meets the criterion [tags]: it is omitted, or the record has a
    list of tags that is a rearrangement of it. *)
Definition meets_tags (c : criteria) (r : MetricsRecord) : Prop :=
  c_tags c = None
  ∨ ∃ ts rts, c_tags c = Some ts ∧ rec_tags r = Some rts ∧ ts ≡ₚ rts.

(** The query made of the four fields of a record:
    [fun_name=record[0], stat=record[1], value=record[2], tags=record[3]]. *)
Definition criteria_of (r : MetricsRecord) : criteria :=
  mkCriteria (Some (rec_fun_name r)) (Some (rec_stat r)) (rec_value r) (rec_tags r).

(** Every record of the list carries a list of tags. *)
Definition all_tagged (rs : list MetricsRecord) : Prop :=
  Forall (λ r, rec_tags r ≠ None) rs.

(** ** The order on strings *)

Lemma ascii_compare_refl (a : ascii) : Ascii.compare a a = Eq.
Proof. unfold Ascii.compare. apply N.compare_refl. Qed.

Lemma string_compare_refl (s : string) : String.compare s s = Eq.
Proof. induction s as [|a s IH]; simpl; [done|]. by rewrite ascii_compare_refl. Qed.

Lemma ascii_compare_trans_lt (a b c : ascii) :
  Ascii.compare a b = Lt → Ascii.compare b c = Lt → Ascii.compare a c = Lt.
Proof.
  unfold Ascii.compare. rewrite !N.compare_lt_iff. apply N.lt_trans.
Qed.

Lemma string_compare_not_gt_trans (s1 s2 s3 : string) :
  String.compare s1 s2 ≠ Gt → String.compare s2 s3 ≠ Gt →
  String.compare s1 s3 ≠ Gt.
Proof.
  revert s2 s3. induction s1 as [|a s1 IH]; intros [|b s2] [|c s3]; simpl; try done.
  destruct (Ascii.compare a b) eqn:Hab; [|clear IH|done].
  - apply Ascii.compare_eq_iff in Hab as ->.
    destruct (Ascii.compare b c); [apply IH|done..].
  - destruct (Ascii.compare b c) eqn:Hbc; [| |done].
    + apply Ascii.compare_eq_iff in Hbc as <-. by rewrite Hab.
    + by rewrite (ascii_compare_trans_lt a b c).
Qed.

Lemma str_le_not_gt (a b : string) : str_le a b ↔ String.compare a b ≠ Gt.
Proof. unfold str_le, String.leb. by destruct (String.compare a b). Qed.

#[global] Instance str_le_refl : Reflexive str_le.
Proof. intros s. apply str_le_not_gt. by rewrite string_compare_refl. Qed.

#[global] Instance str_le_trans : Transitive str_le.
Proof.
  intros a b c. rewrite !str_le_not_gt. apply string_compare_not_gt_trans.
Qed.

#[global] Instance str_le_antisym : AntiSymm (=) str_le.
Proof. intros a b. apply String.leb_antisym. Qed.

#[global] Instance str_le_total : Total str_le.
Proof. intros a b. apply String.leb_total. Qed.

(** [sorted] depends on the elements of its argument only, each with its
    number of occurrences. *)
Lemma merge_sort_eq_iff_perm (l1 l2 : list string) :
  merge_sort str_le l1 = merge_sort str_le l2 ↔ l1 ≡ₚ l2.
Proof.
  split.
  - intros Heq. rewrite <- (merge_sort_Permutation str_le l1), Heq.
    apply merge_sort_Permutation.
  - intros Hp. apply (Sorted_unique str_le); try apply Sorted_merge_sort; try apply _.
    by rewrite !merge_sort_Permutation.
Qed.

(** ** Running computations *)

Lemma bind_returns {A B} (c : M A) (k : A → M B) (w w' : World) (a : A) :
  c w = Returns a w' → (c ≫= k) w = k a w'.
Proof. intros H. unfold mbind, M_bind. by rewrite H. Qed.

Lemma bind_raises {A B} (c : M A) (k : A → M B) (w w' : World) (e : exn) :
  c w = Raises e w' → (c ≫= k) w = Raises e w'.
Proof. intros H. unfold mbind, M_bind. by rewrite H. Qed.

(** Unfold the methods down to the store. *)
Ltac run :=
  unfold with_, try_, has_record, filter_records, clear_records, get_records,
    __exit__, __enter__, emit, incr, gauge, timing, histogram, _add_record,
    __init__, _override_metrics, set_attr_records, get_attr_records, raise,
    mbind, M_bind, mret, M_ret; simpl.

Lemma assign_records_self self rs w :
  records (mocks (assign_records self rs w) self) = rs.
Proof. simpl. by rewrite fn_lookup_insert. Qed.

Lemma assign_records_other self other rs w :
  other ≠ self → mocks (assign_records self rs w) other = mocks w other.
Proof. intros Hne. simpl. by rewrite fn_lookup_insert_ne. Qed.

Lemma add_record_run self fn stat v tags w :
  _add_record self fn stat v tags w =
  Returns tt (assign_records self
                (records (mocks w self) ++ [mkRecord fn stat v tags]) w).
Proof. by run. Qed.

Lemma emit_run self c w :
  emit self c w =
  Returns tt (assign_records self (records (mocks w self) ++ [record_of c]) w).
Proof. destruct c; by run. Qed.

Lemma only_records_changed_assign self rs w :
  only_records_changed self rs w (assign_records self rs w).
Proof.
  split; [apply assign_records_self|]. split; [done|].
  intros other. apply assign_records_other.
Qed.

Lemma only_records_changed_refl self w :
  only_records_changed self (records (mocks w self)) w w.
Proof. by repeat split. Qed.

Lemma only_records_changed_trans self rs1 rs2 w w1 w2 :
  only_records_changed self rs1 w w1 →
  only_records_changed self rs2 w1 w2 →
  only_records_changed self rs2 w w2.
Proof.
  intros (_ & Ho1 & Hm1) (Hr2 & Ho2 & Hm2). split; [done|]. split.
  - by rewrite Ho2.
  - intros other Hne. rewrite Hm2 by done. by apply Hm1.
Qed.

Lemma emit_all_run self cs : ∀ w,
  ∃ w', emit_all self cs w = Returns tt w'
        ∧ only_records_changed self
            (records (mocks w self) ++ (record_of <$> cs)) w w'.
Proof.
  induction cs as [|c cs IH]; intros w; simpl.
  - exists w. split; [done|]. rewrite app_nil_r. apply only_records_changed_refl.
  - destruct (IH (assign_records self (records (mocks w self) ++ [record_of c]) w))
      as (w' & Hrun & Hch).
    exists w'. split.
    + by rewrite (bind_returns _ _ _ _ _ (emit_run self c w)).
    + rewrite assign_records_self, <- app_assoc in Hch.
      eapply only_records_changed_trans; [|exact Hch].
      apply only_records_changed_assign.
Qed.

(** ** Emission *)

(** C8 (emission totality): each of [incr], [gauge], [timing] and
    [histogram] returns [None] without raising, for every stat string, every
    value ([None], integer, string or [nan]) and every tag argument ([None]
    included); the stat, the value and the tags are appended to the records
    of [self] exactly as given, [incr] with its value omitted stores [1], and
    nothing else in the store changes. *)
Theorem emission_total (self : ref) (stat : string) (v : value)
    (tags : tag_list) (w : World) :
  (∃ w', incr self stat (Some v) tags w = Returns tt w'
         ∧ only_records_changed self
             (records (mocks w self) ++ [mkRecord INCR stat v tags]) w w')
  ∧ (∃ w', incr self stat None tags w = Returns tt w'
           ∧ only_records_changed self
               (records (mocks w self) ++ [mkRecord INCR stat (VInt 1) tags]) w w')
  ∧ (∃ w', gauge self stat v tags w = Returns tt w'
           ∧ only_records_changed self
               (records (mocks w self) ++ [mkRecord GAUGE stat v tags]) w w')
  ∧ (∃ w', timing self stat v tags w = Returns tt w'
           ∧ only_records_changed self
               (records (mocks w self) ++ [mkRecord TIMING stat v tags]) w w')
  ∧ (∃ w', histogram self stat v tags w = Returns tt w'
           ∧ only_records_changed self
               (records (mocks w self) ++ [mkRecord HISTOGRAM stat v tags]) w w').
Proof.
  repeat split; eexists; (split; [apply add_record_run|]);
    apply only_records_changed_assign.
Qed.

(** C9 (increment default value): [incr] called without a value appends
    exactly one record, [(INCR, stat, 1, tags)], to the records of [self],
    for every stat and every tag argument. *)
Theorem incr_default_value (self : ref) (stat : string) (tags : tag_list)
    (w : World) :
  ∃ w', incr self stat None tags w = Returns tt w'
        ∧ only_records_changed self
            (records (mocks w self) ++ [mkRecord INCR stat (VInt 1) tags]) w w'.
Proof.
  eexists. split; [apply add_record_run|]. apply only_records_changed_assign.
Qed.

(** C4 (order preservation, read purity): every emission call appends one
    record at the end of the records of [self]; after a sequence of calls
    [get_records] returns the earlier records followed by one record per
    call, in call order, and leaves the store as it is; inside a scope, two
    reads in a row both return exactly the records of the calls made since
    [__enter__]. *)
Theorem get_records_call_order (self : ref) (cs : list call) (w : World) :
  (∀ c w0, ∃ w1, emit self c w0 = Returns tt w1
                 ∧ records (mocks w1 self)
                   = records (mocks w0 self) ++ [record_of c])
  ∧ (∃ w', emit_all self cs w = Returns tt w'
           ∧ get_records self w'
             = Returns (records (mocks w self) ++ (record_of <$> cs)) w')
  ∧ (∃ w', (_ ← __enter__ self;
            _ ← emit_all self cs;
            x ← get_records self;
            y ← get_records self;
            mret (x, y)) w
           = Returns (record_of <$> cs, record_of <$> cs) w').
Proof.
  split; [|split].
  - intros c w0. eexists. split; [apply emit_run|]. apply assign_records_self.
  - destruct (emit_all_run self cs w) as (w' & Hrun & Hrec & _).
    exists w'. split; [done|]. run. by rewrite Hrec.
  - set (w1 := mkWorld (<[self := mkMock []]> (mocks w)) (Some [self])).
    destruct (emit_all_run self cs w1) as (w' & Hrun & Hrec & _).
    exists w'. run. fold w1. rewrite Hrun, Hrec. subst w1. simpl.
    by rewrite fn_lookup_insert.
Qed.

(** ** Clearing and the scope *)

(** C10 ([clear_records] frame property): in every store, whether a scope
    is active or not, [clear_records] returns [None], leaves the records of
    [self] empty, and changes neither the overriding backend nor any other
    object. *)
Theorem clear_records_frame (self : ref) (w : World) :
  ∃ w', clear_records self w = Returns tt w'
        ∧ only_records_changed self [] w w'
        ∧ get_records self w' = Returns [] w'.
Proof.
  exists (assign_records self [] w). split; [done|]. split.
  - apply only_records_changed_assign.
  - run. by rewrite fn_lookup_insert.
Qed.

(** C6 (scope entry resets, then installs): [__enter__] first empties the
    records of [self], with the override slot still as it was, then makes
    [[self]] the overriding backends, and returns [self]; so entering again
    after a scope has ended, whatever its body recorded or raised, gives
    empty records at once. *)
Theorem enter_resets_then_installs (self : ref) (w : World) :
  (∃ w1 w2, set_attr_records self [] w = Returns tt w1
            ∧ records (mocks w1 self) = []
            ∧ override_backends w1 = override_backends w
            ∧ _override_metrics (Some [self]) w1 = Returns tt w2
            ∧ __enter__ self w = Returns self w2
            ∧ records (mocks w2 self) = []
            ∧ override_backends w2 = Some [self])
  ∧ (∀ body : ref → M unit,
       ∃ w', (x ← __enter__ self; get_records x) (world_of (with_ self body w))
             = Returns [] w'
             ∧ override_backends w' = Some [self]).
Proof.
  split.
  - do 2 eexists. split; [reflexivity|]. split; [apply assign_records_self|].
    split; [done|]. split; [reflexivity|]. split; [reflexivity|].
    split; [apply assign_records_self|done].
  - intros body. eexists. run. rewrite fn_lookup_insert. done.
Qed.

(** C7 (scope exit): [__exit__] always returns [None], which is not a true
    value, sets the override slot to [None] whatever it held, and leaves
    every object as it was; hence a [with] block that ends normally returns,
    one whose body raises [e] raises the same [e], and in both cases the slot
    is [None] afterwards and [get_records] still returns what the body left. *)
Theorem exit_unregisters_keeps_records (self : ref) :
  (∀ exc w, ∃ w', __exit__ self exc w = Returns VNone w'
                  ∧ truthy VNone = false
                  ∧ override_backends w' = None
                  ∧ mocks w' = mocks w)
  ∧ (∀ (body : ref → M unit) w,
       match body self (world_of (__enter__ self w)) with
       | Returns _ w2 =>
           ∃ w3, with_ self body w = Returns tt w3
                 ∧ override_backends w3 = None
                 ∧ mocks w3 = mocks w2
                 ∧ get_records self w3 = Returns (records (mocks w2 self)) w3
       | Raises e w2 =>
           ∃ w3, with_ self body w = Raises e w3
                 ∧ override_backends w3 = None
                 ∧ mocks w3 = mocks w2
                 ∧ get_records self w3 = Returns (records (mocks w2 self)) w3
       end).
Proof.
  split.
  - intros exc w. eexists. by run.
  - intros body w. run.
    destruct (body self _) as [[] w2|e w2]; eexists; by run.
Qed.

(** ** Filtering *)

Lemma match_tags_run c rtags w :
  match_tags c rtags w =
  match c_tags c, rtags with
  | None, _ => Returns true w
  | Some ts, Some rts =>
      Returns (bool_decide (merge_sort str_le ts = merge_sort str_le rts)) w
  | Some _, None => Raises TypeError w
  end.
Proof. unfold match_tags. by destruct (c_tags c), rtags. Qed.

Lemma matches_run c r w :
  matches c r w =
  if faults c r then Raises TypeError w else Returns (selects c r) w.
Proof.
  unfold matches, and_, match_fun_name, match_stat, match_value, faults,
    selects, selects_head, selects_tags.
  unfold mbind, M_bind, mret, M_ret. fold (@mret M _ bool).
  destruct (match c_fun_name c with None => _ | Some _ => _ end); simpl; [|done].
  destruct (match c_stat c with None => _ | Some _ => _ end); simpl; [|done].
  destruct (match c_value c with VNone => _ | _ => _ end); simpl; [|done].
  rewrite match_tags_run. by destruct (c_tags c), (rec_tags r).
Qed.

(** The comprehension raises at the first record on which its condition
    raises; otherwise it keeps, in order, the records the criteria select. *)
Lemma comprehension_run c rs w :
  comprehension (matches c) rs w =
  if existsb (faults c) rs then Raises TypeError w
  else Returns (List.filter (selects c) rs) w.
Proof.
  induction rs as [|r rs IH]; simpl; [done|].
  unfold mbind, M_bind. rewrite matches_run.
  destruct (faults c r); simpl; [done|].
  rewrite IH. destruct (existsb (faults c) rs); [done|].
  unfold mret, M_ret. by destruct (selects c r).
Qed.

Lemma filter_records_run self c w :
  filter_records self c w =
  if existsb (faults c) (records (mocks w self)) then Raises TypeError w
  else Returns (List.filter (selects c) (records (mocks w self))) w.
Proof.
  unfold filter_records, get_records, get_attr_records, mbind, M_bind.
  apply comprehension_run.
Qed.

Lemma filter_sublist {A} (f : A → bool) (l : list A) :
  List.filter f l `sublist_of` l.
Proof.
  induction l as [|x l IH]; simpl; [constructor|].
  destruct (f x); by constructor.
Qed.

(** Without a [tags] criterion, or when every record carries a list of
    tags, [filter_records] returns: the result is the sublist of the records
    selected by all four criteria. *)
Lemma filter_records_returns self c w :
  c_tags c = None ∨ Forall (λ r, rec_tags r ≠ None) (records (mocks w self)) →
  filter_records self c w
  = Returns (List.filter (selects c) (records (mocks w self))) w
  ∧ List.filter (selects c) (records (mocks w self))
    `sublist_of` records (mocks w self).
Proof.
  intros H. split; [|apply filter_sublist].
  rewrite filter_records_run.
  replace (existsb (faults c) (records (mocks w self))) with false; [done|].
  symmetry. apply not_true_is_false. rewrite existsb_exists.
  intros (r & Hin & Hf). unfold faults in Hf.
  apply andb_prop in Hf as [_ Hf].
  destruct H as [H|H].
  - by rewrite H in Hf.
  - rewrite Forall_forall in H. apply list_elem_of_In, H in Hin.
    by destruct (c_tags c), (rec_tags r).
Qed.

(** With no criteria at all every record is returned. *)
Lemma filter_records_no_criteria self w :
  filter_records self no_criteria w = Returns (records (mocks w self)) w.
Proof.
  destruct (filter_records_returns self no_criteria w) as [-> _]; [by left|].
  f_equal. induction (records (mocks w self)) as [|r l IH]; simpl; [done|].
  by rewrite IH.
Qed.

(** On a record that carries a list of tags, [match_tags] with a supplied
    criterion always returns, and the answer is [True] exactly when the two
    sorted lists are equal, that is when the lists hold the same elements,
    each as often, in any order. *)
Lemma match_tags_on_tagged_record fn st v ts rts w :
  ∃ b, match_tags (mkCriteria fn st v (Some ts)) (Some rts) w = Returns b w
       ∧ (b = true ↔ merge_sort str_le ts = merge_sort str_le rts)
       ∧ (b = true ↔ ts ≡ₚ rts).
Proof.
  eexists. rewrite match_tags_run. simpl.
  split; [done|]. rewrite bool_decide_eq_true. split; [done|].
  apply merge_sort_eq_iff_perm.
Qed.

(** C2, at the input where the code departs from it: a record stored
    without tags, as every emission method stores it by default, has the
    empty tag collection, so it matches the query [tags=[]] and no other; but
    [match_tags] raises [TypeError] on such a record for every supplied tag
    list and decides nothing.  After [gauge("g", 1)] the query
    [filter_records(fun_name=GAUGE, tags=[])] raises, whereas the same record
    stored with [tags=[]] is returned.  On records that carry tags the
    matching is the order-insensitive equality of the claim: tags
    [["a"; "b"]] are returned for [["b"; "a"]] and not for [["a"]]. *)
Theorem match_tags_tagless_record_raises :
  (∀ fn st v ts w,
     match_tags (mkCriteria fn st v (Some ts)) None w = Raises TypeError w)
  ∧ (let q := mkCriteria (Some GAUGE) None VNone (Some []) in
     let w := world_of (gauge 0 "g" (VInt 1) None fresh_world) in
     let w' := world_of (gauge 0 "g" (VInt 1) (Some []) fresh_world) in
     get_records 0 w = Returns [mkRecord GAUGE "g" (VInt 1) None] w
     ∧ filter_records 0 q w = Raises TypeError w
     ∧ filter_records 0 q w' = Returns [mkRecord GAUGE "g" (VInt 1) (Some [])] w')
  ∧ (let r := mkRecord TIMING "req.latency" (VInt 120) (Some ["a"; "b"]) in
     let w := world_of (timing 0 "req.latency" (VInt 120) (Some ["a"; "b"])
                          fresh_world) in
     filter_records 0 (mkCriteria None None VNone (Some ["b"; "a"])) w
     = Returns [r] w
     ∧ filter_records 0 (mkCriteria None None VNone (Some ["a"])) w
       = Returns [] w).
Proof.
  split; [|split].
  - intros fn st v ts w. by rewrite match_tags_run.
  - by vm_compute.
  - by vm_compute.
Qed.

(** C5 ([has_record] is [bool(filter_records(...))]): [has_record] returns
    [True] exactly when [filter_records] with the same criteria returns a
    list that is not empty, [False] exactly when it returns the empty list,
    raises exactly when it raises, and in every case leaves the store as it
    found it. *)
Theorem has_record_iff_filter_nonempty (self : ref) (c : criteria) (w : World) :
  (has_record self c w = Returns true w
   ↔ ∃ l, filter_records self c w = Returns l w ∧ l ≠ [])
  ∧ (has_record self c w = Returns false w
     ↔ filter_records self c w = Returns [] w)
  ∧ (∀ e, has_record self c w = Raises e w
          ↔ filter_records self c w = Raises e w)
  ∧ world_of (has_record self c w) = w
  ∧ world_of (filter_records self c w) = w.
Proof.
  unfold has_record, mbind, M_bind. rewrite filter_records_run.
  destruct (existsb _ _); simpl.
  - repeat split; try done; try congruence. by intros (l & ? & _).
  - unfold mret, M_ret.
    destruct (List.filter _ _) as [|r l]; simpl; repeat split; try done.
    + by intros (l & [= <-] & ?).
    + intros _. by eexists.
Qed.

(** C1, at the input where the code departs from it: after [incr("a")] the
    only record has tags [None]; [filter_records(tags=[])] then raises
    [TypeError] instead of returning, whereas the same record stored with the
    empty tag list is returned by the same query. *)
Theorem filter_records_null_tags_raises :
  let q := mkCriteria None None VNone (Some []) in
  let w := world_of (incr 0 "a" None None fresh_world) in
  let w' := world_of (incr 0 "a" None (Some []) fresh_world) in
  get_records 0 w = Returns [mkRecord INCR "a" (VInt 1) None] w
  ∧ filter_records 0 q w = Raises TypeError w
  ∧ get_records 0 w' = Returns [mkRecord INCR "a" (VInt 1) (Some [])] w'
  ∧ filter_records 0 q w' = Returns [mkRecord INCR "a" (VInt 1) (Some [])] w'.
Proof. by vm_compute. Qed.

(** C3, at the input where the code departs from it: with the records
    [(INCR, "a", 1, None)] and [(GAUGE, "b", 2, ["x"])], the query
    [filter_records(fun_name=INCR, tags=["x"])], which no record satisfies,
    raises [TypeError] instead of returning the empty list; the query
    [filter_records(fun_name=GAUGE, tags=["x"])] never reaches the tags of
    the first record and returns the second. *)
Theorem filter_records_conjunction_raises :
  let r1 := mkRecord INCR "a" (VInt 1) None in
  let r2 := mkRecord GAUGE "b" (VInt 2) (Some ["x"]) in
  let w := world_of (emit_all 0 [CallIncr "a" None None;
                                 CallGauge "b" (VInt 2) (Some ["x"])]
                       fresh_world) in
  get_records 0 w = Returns [r1; r2] w
  ∧ filter_records 0 (mkCriteria (Some INCR) None VNone (Some ["x"])) w
    = Raises TypeError w
  ∧ filter_records 0 (mkCriteria (Some GAUGE) None VNone (Some ["x"])) w
    = Returns [r2] w.
Proof. by vm_compute. Qed.

(** ** Scenarios *)

(** [incr("req.count")] then [incr("req.count", value=2, tags=["err"])]. *)
Example scenario_counts :
  let w := world_of (emit_all 0 [CallIncr "req.count" None None;
                                 CallIncr "req.count" (Some (VInt 2)) (Some ["err"])]
                       fresh_world) in
  get_records 0 w
  = Returns [mkRecord INCR "req.count" (VInt 1) None;
             mkRecord INCR "req.count" (VInt 2) (Some ["err"])] w
  ∧ has_record 0 (mkCriteria (Some INCR) (Some "req.count") (VInt 2) (Some ["err"])) w
    = Returns true w.
Proof. by vm_compute. Qed.

(** [gauge("mem.used", 512)]. *)
Example scenario_gauge :
  let w := world_of (gauge 0 "mem.used" (VInt 512) None fresh_world) in
  has_record 0 (mkCriteria (Some GAUGE) (Some "mem.used") (VInt 512) None) w
  = Returns true w
  ∧ has_record 0 (mkCriteria (Some GAUGE) (Some "mem.used") (VInt 256) None) w
    = Returns false w.
Proof. by vm_compute. Qed.

(** A stat query returns the records with that stat, whatever their kind,
    value and tags, in the order of the calls. *)
Example scenario_stat :
  let w := world_of (emit_all 0 [CallIncr "s" None None;
                                 CallGauge "t" (VInt 3) (Some ["x"]);
                                 CallTiming "s" (VStr "slow") (Some [])]
                       fresh_world) in
  filter_records 0 (mkCriteria None (Some "s") VNone None) w
  = Returns [mkRecord INCR "s" (VInt 1) None;
             mkRecord TIMING "s" (VStr "slow") (Some [])] w.
Proof. by vm_compute. Qed.

(** Two mocks, the scope of the second opened inside the scope of the
    first: when the first one exits, the slot held by the second is
    emptied. *)
Example scenario_nested_exit :
  let w := world_of ((_ ← __enter__ 0; __enter__ 1) fresh_world) in
  override_backends w = Some [1]
  ∧ override_backends (world_of (__exit__ 0 None w)) = None.
Proof. by vm_compute. Qed.

(** A body that records and then fails: the failure comes out of the [with]
    block, the slot is empty, the record is still there. *)
Example scenario_failing_body :
  let body := λ mm, _ ← incr mm "k" None None; raise (Exception "boom") in
  ∃ w, with_ 0 body fresh_world = Raises (Exception "boom") w
       ∧ override_backends w = None
       ∧ get_records 0 w = Returns [mkRecord INCR "k" (VInt 1) None] w.
Proof. eexists. by vm_compute. Qed.

(** A scope that recorded, then a new entry: the records are gone. *)
Example scenario_reenter :
  let body := λ mm, _ ← incr mm "k" None None; gauge mm "g" (VInt 7) (Some ["t"]) in
  let w := world_of (with_ 0 body fresh_world) in
  get_records 0 w
  = Returns [mkRecord INCR "k" (VInt 1) None;
             mkRecord GAUGE "g" (VInt 7) (Some ["t"])] w
  ∧ ∃ w', (x ← __enter__ 0; get_records x) w = Returns [] w'.
Proof. split; [by vm_compute|]. eexists. by vm_compute. Qed.

(** ** More on filtering *)

#[local] Set Warnings "-clear-no-such-hyp".

Lemma selects_head_meets c r : selects_head c r = true ↔ meets_head c r.
Proof.
  unfold selects_head, meets_head. rewrite !andb_true_iff.
  assert (Hf : match c_fun_name c with
               | None => true
               | Some f => bool_decide (f = rec_fun_name r)
               end = true
               ↔ c_fun_name c = None ∨ c_fun_name c = Some (rec_fun_name r)).
  { destruct (c_fun_name c) as [f|]; [|naive_solver].
    rewrite bool_decide_eq_true. naive_solver. }
  assert (Hs : match c_stat c with
               | None => true
               | Some s => bool_decide (s = rec_stat r)
               end = true
               ↔ c_stat c = None ∨ c_stat c = Some (rec_stat r)).
  { destruct (c_stat c) as [s|]; [|naive_solver].
    rewrite bool_decide_eq_true. naive_solver. }
  assert (Hv : match c_value c with
               | VNone => true
               | v => py_eq v (rec_value r)
               end = true
               ↔ c_value c = VNone ∨ py_eq (c_value c) (rec_value r) = true).
  { destruct (c_value c) as [|z|s|]; naive_solver. }
  rewrite Hf, Hs, Hv. tauto.
Qed.

Lemma selects_tags_meets c r : selects_tags c r = true ↔ meets_tags c r.
Proof.
  unfold selects_tags, meets_tags.
  destruct (c_tags c) as [ts|], (rec_tags r) as [rts|]; try naive_solver.
  rewrite bool_decide_eq_true, merge_sort_eq_iff_perm. naive_solver.
Qed.

Lemma selects_meets c r : selects c r = true ↔ meets_head c r ∧ meets_tags c r.
Proof.
  unfold selects. by rewrite andb_true_iff, selects_head_meets, selects_tags_meets.
Qed.

Lemma elem_of_filter_selects c r rs :
  r ∈ List.filter (selects c) rs ↔ r ∈ rs ∧ meets_head c r ∧ meets_tags c r.
Proof. by rewrite !list_elem_of_In, filter_In, selects_meets. Qed.

Lemma faults_iff c r :
  faults c r = true
  ↔ meets_head c r ∧ rec_tags r = None ∧ ∃ ts, c_tags c = Some ts.
Proof.
  unfold faults. rewrite andb_true_iff, selects_head_meets.
  destruct (c_tags c), (rec_tags r); naive_solver.
Qed.

Lemma existsb_faults_iff c rs :
  existsb (faults c) rs = true
  ↔ ∃ r, r ∈ rs ∧ meets_head c r ∧ rec_tags r = None ∧ ∃ ts, c_tags c = Some ts.
Proof.
  rewrite existsb_exists. setoid_rewrite faults_iff.
  by setoid_rewrite list_elem_of_In.
Qed.

Lemma no_faults_tagged c rs : all_tagged rs → existsb (faults c) rs = false.
Proof.
  intros Ht. apply not_true_is_false. rewrite existsb_faults_iff.
  intros (r & Hin & _ & Hnone & _).
  unfold all_tagged in Ht. rewrite Forall_forall in Ht. by apply (Ht r).
Qed.

Lemma no_faults_untagged_query c rs : c_tags c = None → existsb (faults c) rs = false.
Proof.
  intros Hc. apply not_true_is_false. rewrite existsb_faults_iff.
  intros (r & _ & _ & _ & ts & Hts). congruence.
Qed.

(** X1 (queries without [tags] always return): when the [tags] criterion is
    omitted, [filter_records] returns for every store and leaves the store as
    it is; its result is the list of records filtered, every occurrence kept
    and in order, by the test that holds exactly of the records whose kind,
    stat and value each equal the criterion (the value under [==]) or have
    it omitted; records without tags are no obstacle. *)
Theorem filter_records_without_tags (self : ref) (fn : option fun_name)
    (st : option string) (v : value) (w : World) :
  ∃ keep : MetricsRecord → bool,
    (∀ r, keep r = true ↔ (fn = None ∨ fn = Some (rec_fun_name r))
                          ∧ (st = None ∨ st = Some (rec_stat r))
                          ∧ (v = VNone ∨ py_eq v (rec_value r) = true))
    ∧ filter_records self (mkCriteria fn st v None) w
      = Returns (List.filter keep (records (mocks w self))) w.
Proof.
  exists (selects (mkCriteria fn st v None)). split.
  - intros r. rewrite selects_meets. unfold meets_head, meets_tags. simpl.
    naive_solver.
  - by rewrite filter_records_run, no_faults_untagged_query.
Qed.

(** X2 (when [filter_records] raises): [filter_records] either returns a
    list or raises [TypeError], in both cases with the store unchanged; it
    raises exactly when [tags] is supplied and some record without tags
    meets the criteria on kind, stat and value.  A record without tags that
    fails one of these three is never a cause. *)
Theorem filter_records_raises_iff (self : ref) (c : criteria) (w : World) :
  (filter_records self c w = Raises TypeError w
   ∨ ∃ l, filter_records self c w = Returns l w)
  ∧ (filter_records self c w = Raises TypeError w
     ↔ ∃ r ts, r ∈ records (mocks w self)
               ∧ c_tags c = Some ts
               ∧ rec_tags r = None
               ∧ meets_head c r).
Proof.
  rewrite filter_records_run.
  destruct (existsb _ _) eqn:Hex.
  - split; [by left|]. split; [|done]. intros _.
    apply existsb_faults_iff in Hex as (r & Hin & Hm & Hn & ts & Hts).
    by exists r, ts.
  - split; [right; by eexists|]. split; [done|].
    intros (r & ts & Hin & Hts & Hn & Hm).
    apply not_true_iff_false in Hex. destruct Hex.
    apply existsb_faults_iff. exists r. eauto.
Qed.

(** X3 (queries on records that all carry tags): when every record of
    [self] has a list of tags, [filter_records] returns for every
    combination of criteria; its result is the list of records filtered,
    every occurrence kept and in order, by the test that holds exactly of
    the records that meet the criteria on kind, stat and value and whose tags
    are the supplied tags in some order (or any tags, when [tags] is
    omitted). *)
Theorem filter_records_tagged_store (self : ref) (c : criteria) (w : World) :
  all_tagged (records (mocks w self)) →
  ∃ keep : MetricsRecord → bool,
    (∀ r, keep r = true ↔ meets_head c r ∧ meets_tags c r)
    ∧ filter_records self c w
      = Returns (List.filter keep (records (mocks w self))) w.
Proof.
  intros Ht. exists (selects c). split; [apply selects_meets|].
  by rewrite filter_records_run, no_faults_tagged.
Qed.

Lemma filter_records_tagged_store_witness :
  let r1 := mkRecord INCR "a" (VInt 1) (Some ["x"; "y"]) in
  let r2 := mkRecord GAUGE "a" (VInt 2) (Some []) in
  let c := mkCriteria None (Some "a") VNone (Some ["y"; "x"]) in
  let w := assign_records 0 [r1; r1; r2] fresh_world in
  ∃ keep : MetricsRecord → bool,
    (∀ r, keep r = true ↔ meets_head c r ∧ meets_tags c r)
    ∧ filter_records 0 c w = Returns (List.filter keep (records (mocks w 0))) w.
Proof.
  intros r1 r2 c w. apply (filter_records_tagged_store 0 c w).
  repeat constructor; simpl; discriminate.
Defined.

Lemma emit_all_records self cs w :
  ∃ w', emit_all self cs w = Returns tt w'
        ∧ records (mocks w' self) = records (mocks w self) ++ (record_of <$> cs)
        ∧ override_backends w' = override_backends w
        ∧ ∀ other, other ≠ self → mocks w' other = mocks w other.
Proof.
  destruct (emit_all_run self cs w) as (w' & Hrun & Hrec & Hov & Hoth).
  by exists w'.
Qed.

Lemma has_record_run self c w :
  has_record self c w =
  if existsb (faults c) (records (mocks w self)) then Raises TypeError w
  else Returns (bool_of_list (List.filter (selects c) (records (mocks w self)))) w.
Proof.
  unfold has_record, mbind, M_bind. rewrite filter_records_run.
  by destruct (existsb _ _).
Qed.

Lemma bool_of_list_true {A} (l : list A) : bool_of_list l = true ↔ ∃ x, x ∈ l.
Proof.
  destruct l as [|x l]; simpl; split; try done.
  - intros [x Hx]. by apply not_elem_of_nil in Hx.
  - intros _. exists x. by left.
Qed.

(** X4 (a query after further emissions): after the calls [cs], the result
    of [filter_records] is its result before the calls followed by its
    result on the records of the calls alone; it raises exactly when one of
    the two does. *)
Theorem filter_records_after_emissions (self : ref) (c : criteria)
    (cs : list call) (w : World) :
  let w_new := assign_records self (record_of <$> cs) w in
  ∃ w', emit_all self cs w = Returns tt w'
        ∧ filter_records self c w' =
          match filter_records self c w, filter_records self c w_new with
          | Returns l_old _, Returns l_new _ => Returns (l_old ++ l_new) w'
          | _, _ => Raises TypeError w'
          end.
Proof.
  intros w_new.
  destruct (emit_all_records self cs w) as (w' & Hrun & Hrec & _).
  exists w'. split; [done|].
  rewrite !filter_records_run, Hrec. subst w_new.
  rewrite assign_records_self, existsb_app, List.filter_app.
  destruct (existsb (faults c) (records (mocks w self))); simpl; [done|].
  by destruct (existsb (faults c) (record_of <$> cs)).
Qed.

(** X5 (a positive answer stays positive): once [has_record] has returned
    [True], it returns [True] again after any further emission calls,
    provided the query omits [tags] or every further call passes a list of
    tags. *)
Theorem has_record_stays_true (self : ref) (c : criteria) (cs : list call)
    (w : World) :
  has_record self c w = Returns true w →
  c_tags c = None ∨ all_tagged (record_of <$> cs) →
  ∃ w', emit_all self cs w = Returns tt w'
        ∧ has_record self c w' = Returns true w'.
Proof.
  intros Hhas Hside.
  destruct (emit_all_records self cs w) as (w' & Hrun & Hrec & _).
  exists w'. split; [done|].
  rewrite has_record_run in Hhas. rewrite has_record_run, Hrec.
  rewrite existsb_app, List.filter_app.
  destruct (existsb (faults c) (records (mocks w self))); [done|].
  injection Hhas as Hhas. simpl.
  replace (existsb (faults c) (record_of <$> cs)) with false.
  - f_equal. apply bool_of_list_true.
    apply bool_of_list_true in Hhas as [r Hr]. exists r.
    apply elem_of_app. by left.
  - symmetry. destruct Hside as [Hc|Ht];
      [by apply no_faults_untagged_query|by apply no_faults_tagged].
Qed.

Lemma has_record_stays_true_witness :
  let c := mkCriteria (Some INCR) None VNone (Some ["x"]) in
  let cs := [CallGauge "g" (VInt 3) (Some []); CallIncr "a" None (Some ["x"])] in
  let w := world_of (incr 0 "a" None (Some ["x"]) fresh_world) in
  ∃ w', emit_all 0 cs w = Returns tt w'
        ∧ has_record 0 c w' = Returns true w'.
Proof.
  intros c cs w. apply (has_record_stays_true 0 c cs w).
  - reflexivity.
  - right. repeat constructor; simpl; discriminate.
Defined.

(** X6 (what was emitted is found): in a store where every earlier record
    of [self] carries a list of tags, after an emission call whose value is
    equal to itself under [==] (every integer, string and [None]; not
    [nan]), the query made of the four fields of the new record returns
    normally, its result contains that record, and [has_record] with the same
    query returns [True]. *)
Theorem has_record_finds_emitted (self : ref) (c : call) (w : World) :
  all_tagged (records (mocks w self)) →
  py_eq (rec_value (record_of c)) (rec_value (record_of c)) = true →
  ∃ w' l, emit self c w = Returns tt w'
          ∧ filter_records self (criteria_of (record_of c)) w' = Returns l w'
          ∧ record_of c ∈ l
          ∧ has_record self (criteria_of (record_of c)) w' = Returns true w'.
Proof.
  intros Ht Hv. set (r := record_of c) in *.
  set (w' := assign_records self (records (mocks w self) ++ [r]) w).
  assert (Hnf : existsb (faults (criteria_of r)) (records (mocks w' self)) = false).
  { apply not_true_is_false. rewrite existsb_faults_iff.
    intros (r' & Hin & _ & Hnone & ts & Hts).
    subst w'. rewrite assign_records_self in Hin.
    apply elem_of_app in Hin as [Hin|Hin].
    - unfold all_tagged in Ht. rewrite Forall_forall in Ht. by apply (Ht r').
    - apply list_elem_of_singleton in Hin as ->. simpl in Hts. congruence. }
  assert (Hin : r ∈ List.filter (selects (criteria_of r)) (records (mocks w' self))).
  { apply elem_of_filter_selects. split; [|split].
    - subst w'. rewrite assign_records_self. apply elem_of_app. right. by left.
    - unfold meets_head. simpl. auto.
    - unfold meets_tags. simpl. destruct (rec_tags r) as [ts|]; [right|by left].
      by exists ts, ts. }
  exists w', (List.filter (selects (criteria_of r)) (records (mocks w' self))).
  split; [apply emit_run|]. split; [by rewrite filter_records_run, Hnf|].
  split; [done|]. rewrite has_record_run, Hnf. f_equal.
  apply bool_of_list_true. by exists r.
Qed.

Lemma has_record_finds_emitted_witness :
  let c := CallTiming "t" (VStr "slow") (Some ["b"; "a"]) in
  let w := world_of (gauge 0 "g" (VInt 1) (Some []) fresh_world) in
  ∃ w' l, emit 0 c w = Returns tt w'
          ∧ filter_records 0 (criteria_of (record_of c)) w' = Returns l w'
          ∧ record_of c ∈ l
          ∧ has_record 0 (criteria_of (record_of c)) w' = Returns true w'.
Proof.
  intros c w. apply (has_record_finds_emitted 0 c w).
  - repeat constructor; simpl; discriminate.
  - reflexivity.
Defined.

Lemma filter_selects_nil c rs :
  (∀ r, r ∈ rs → ¬ meets_head c r) → List.filter (selects c) rs = [].
Proof.
  intros Hno. destruct (List.filter (selects c) rs) as [|r l] eqn:Hf; [done|].
  assert (Hin : r ∈ List.filter (selects c) rs) by (rewrite Hf; by left).
  apply elem_of_filter_selects in Hin as (Hin & Hm & _). by destruct (Hno r).
Qed.

(** X7 (a stat that was never recorded): when no record of [self] has stat
    [s], every query for [s] returns the empty list and [has_record] returns
    [False], whatever the other criteria; the tags of the records are never
    looked at, so records without tags cannot make such a query raise. *)
Theorem filter_records_unknown_stat (self : ref) (s : string)
    (fn : option fun_name) (v : value) (tags : tag_list) (w : World) :
  Forall (λ r, rec_stat r ≠ s) (records (mocks w self)) →
  filter_records self (mkCriteria fn (Some s) v tags) w = Returns [] w
  ∧ has_record self (mkCriteria fn (Some s) v tags) w = Returns false w.
Proof.
  intros Hs. rewrite Forall_forall in Hs.
  assert (Hno : ∀ r, r ∈ records (mocks w self)
                     → ¬ meets_head (mkCriteria fn (Some s) v tags) r).
  { intros r Hin (_ & [Hst|Hst] & _); simpl in Hst; [done|].
    injection Hst as Hst. by apply (Hs r). }
  assert (Hnf : existsb (faults (mkCriteria fn (Some s) v tags))
                  (records (mocks w self)) = false).
  { apply not_true_is_false. rewrite existsb_faults_iff.
    intros (r & Hin & Hm & _). by apply (Hno r). }
  rewrite has_record_run, filter_records_run, Hnf, filter_selects_nil by done.
  done.
Qed.

Lemma filter_records_unknown_stat_witness :
  let w := world_of (emit_all 0 [CallIncr "a" None None;
                                 CallGauge "b" (VInt 2) None] fresh_world) in
  filter_records 0 (mkCriteria None (Some "c") VNone (Some ["x"])) w = Returns [] w
  ∧ has_record 0 (mkCriteria None (Some "c") VNone (Some ["x"])) w = Returns false w.
Proof.
  intros w.
  apply (filter_records_unknown_stat 0 "c" None VNone (Some ["x"]) w).
  repeat constructor; simpl; discriminate.
Defined.

(** X8 (queries on a mock without records): right after [__init__],
    [__enter__] or [clear_records], every query, with any combination of
    criteria, returns the empty list, and [has_record] returns [False]. *)
Theorem queries_on_empty_records (self : ref) (c : criteria) (w : World) :
  let w1 := world_of (__init__ self w) in
  let w2 := world_of (__enter__ self w) in
  let w3 := world_of (clear_records self w) in
  (filter_records self c w1 = Returns [] w1
   ∧ has_record self c w1 = Returns false w1)
  ∧ (filter_records self c w2 = Returns [] w2
     ∧ has_record self c w2 = Returns false w2)
  ∧ (filter_records self c w3 = Returns [] w3
     ∧ has_record self c w3 = Returns false w3).
Proof.
  intros w1 w2 w3.
  assert (H1 : records (mocks w1 self) = []) by apply assign_records_self.
  assert (H2 : records (mocks w2 self) = []) by apply assign_records_self.
  assert (H3 : records (mocks w3 self) = []) by apply assign_records_self.
  by rewrite !has_record_run, !filter_records_run, H1, H2, H3.
Qed.

(** X9 (the empty tag list is a criterion, not a wildcard): when every
    record of [self] carries a list of tags, a query with [tags=[]] returns
    the list of records filtered, every occurrence kept and in order, by the
    test that holds exactly of the records that meet the other criteria and
    whose list of tags is empty. *)
Theorem filter_records_empty_tags (self : ref) (fn : option fun_name)
    (st : option string) (v : value) (w : World) :
  all_tagged (records (mocks w self)) →
  ∃ keep : MetricsRecord → bool,
    (∀ r, keep r = true ↔ meets_head (mkCriteria fn st v (Some [])) r
                          ∧ rec_tags r = Some [])
    ∧ filter_records self (mkCriteria fn st v (Some [])) w
      = Returns (List.filter keep (records (mocks w self))) w.
Proof.
  intros Ht. exists (selects (mkCriteria fn st v (Some []))). split.
  - intros r. rewrite selects_meets. unfold meets_tags. simpl. split.
    + intros (Hm & [?|(ts & rts & [= <-] & Hr & Hp)]); [done|].
      apply Permutation_nil_l in Hp as ->. done.
    + intros (Hm & Hr). split; [done|]. right. by exists [], [].
  - by rewrite filter_records_run, no_faults_tagged.
Qed.

Lemma filter_records_empty_tags_witness :
  let w := world_of (emit_all 0 [CallIncr "a" None (Some []);
                                 CallIncr "a" None (Some ["x"]);
                                 CallIncr "a" None (Some [])] fresh_world) in
  ∃ keep : MetricsRecord → bool,
    (∀ r, keep r = true ↔ meets_head (mkCriteria None None VNone (Some [])) r
                          ∧ rec_tags r = Some [])
    ∧ filter_records 0 (mkCriteria None None VNone (Some [])) w
      = Returns (List.filter keep (records (mocks w 0))) w.
Proof.
  intros w. apply (filter_records_empty_tags 0 None None VNone w).
  repeat constructor; simpl; discriminate.
Defined.

(** ** Several mocks, scopes, kinds, printing *)

(** X10 (mocks are independent): emission calls on one mock change neither
    the records another mock returns nor the outcome of any query on it. *)
Theorem emissions_leave_other_mocks (a b : ref) (cs : list call)
    (c : criteria) (w : World) :
  a ≠ b →
  ∃ w', emit_all a cs w = Returns tt w'
        ∧ get_records b w' = Returns (records (mocks w b)) w'
        ∧ match filter_records b c w with
          | Returns l _ => filter_records b c w' = Returns l w'
          | Raises e _ => filter_records b c w' = Raises e w'
          end.
Proof.
  intros Hne.
  destruct (emit_all_records a cs w) as (w' & Hrun & _ & _ & Hoth).
  exists w'. split; [done|].
  assert (Hb : mocks w' b = mocks w b) by (apply Hoth; congruence).
  split.
  - unfold get_records, get_attr_records. by rewrite Hb.
  - rewrite !filter_records_run, Hb. by destruct (existsb _ _).
Qed.

Lemma emissions_leave_other_mocks_witness :
  let w := world_of (incr 1 "kept" None None fresh_world) in
  ∃ w', emit_all 0 [CallIncr "a" None None; CallGauge "g" (VInt 2) None] w
        = Returns tt w'
        ∧ get_records 1 w' = Returns (records (mocks w 1)) w'
        ∧ match filter_records 1 (mkCriteria None None VNone (Some [])) w with
          | Returns l _ =>
              filter_records 1 (mkCriteria None None VNone (Some [])) w'
              = Returns l w'
          | Raises e _ =>
              filter_records 1 (mkCriteria None None VNone (Some [])) w'
              = Raises e w'
          end.
Proof.
  intros w.
  apply (emissions_leave_other_mocks 0 1
           [CallIncr "a" None None; CallGauge "g" (VInt 2) None]
           (mkCriteria None None VNone (Some [])) w).
  discriminate.
Defined.

(** X11 (a [with] block around emission calls): whatever the mock held
    before and whatever backend was installed, a [with] block whose body
    makes the calls [cs] ends normally; afterwards the mock holds exactly the
    records of these calls, in order, no backend is installed, and the other
    mocks are as before. *)
Theorem with_block_records (self : ref) (cs : list call) (w : World) :
  ∃ w', with_ self (λ mm, emit_all mm cs) w = Returns tt w'
        ∧ get_records self w' = Returns (record_of <$> cs) w'
        ∧ override_backends w' = None
        ∧ ∀ other, other ≠ self → mocks w' other = mocks w other.
Proof.
  set (w1 := mkWorld (<[self := mkMock []]> (mocks w)) (Some [self])).
  destruct (emit_all_records self cs w1) as (w2 & Hrun & Hrec & _ & Hoth).
  exists (mkWorld (mocks w2) None). split; [|split; [|split]].
  - run. fold w1. by rewrite Hrun.
  - run. rewrite Hrec. subst w1. simpl. by rewrite fn_lookup_insert.
  - done.
  - intros other Hne. simpl. rewrite Hoth by done. subst w1. simpl.
    by rewrite fn_lookup_insert_ne.
Qed.

(** X12 (scopes do not nest): inside the scope of [a], a complete [with]
    block of any mock [b], whatever its body does and whether it returns or
    raises, leaves no backend installed, although the scope of [a] is still
    open; when [b] is [a] itself, the records [a] had collected on entering
    the inner block are discarded. *)
Theorem inner_scope_uninstalls_outer (a b : ref) (inner : ref → M unit)
    (w : World) :
  let w1 := world_of (__enter__ a w) in
  override_backends w1 = Some [a]
  ∧ override_backends (world_of (with_ b inner w1)) = None
  ∧ ∀ cs, ∃ w2 w3,
      emit_all a cs w1 = Returns tt w2
      ∧ get_records a w2 = Returns (record_of <$> cs) w2
      ∧ with_ a (λ _, mret tt) w2 = Returns tt w3
      ∧ get_records a w3 = Returns [] w3.
Proof.
  intros w1. split; [done|]. split.
  - run. by destruct (inner b _).
  - intros cs.
    destruct (emit_all_records a cs w1) as (w2 & Hrun & Hrec & _).
    exists w2. eexists. split; [done|]. split; [|split].
    + run. rewrite Hrec. subst w1. simpl. by rewrite fn_lookup_insert.
    + by run.
    + run. by rewrite fn_lookup_insert.
Qed.

Lemma filter_kind_partition (rs : list MetricsRecord) :
  List.filter (selects (mkCriteria (Some INCR) None VNone None)) rs
  ++ List.filter (selects (mkCriteria (Some GAUGE) None VNone None)) rs
  ++ List.filter (selects (mkCriteria (Some TIMING) None VNone None)) rs
  ++ List.filter (selects (mkCriteria (Some HISTOGRAM) None VNone None)) rs
  ≡ₚ rs.
Proof.
  induction rs as [|r rs IH]; [done|].
  destruct r as [[] st v tags]; simpl;
    rewrite <- ?Permutation_middle; by constructor.
Qed.

(** X13 (the four kinds split the records): the four queries by kind alone,
    one for each of [INCR], [GAUGE], [TIMING] and [HISTOGRAM], all return,
    and together their results hold every record exactly once. *)
Theorem filter_by_kind_partitions (self : ref) (w : World) :
  ∃ li lg lt lh,
    filter_records self (mkCriteria (Some INCR) None VNone None) w = Returns li w
    ∧ filter_records self (mkCriteria (Some GAUGE) None VNone None) w = Returns lg w
    ∧ filter_records self (mkCriteria (Some TIMING) None VNone None) w = Returns lt w
    ∧ filter_records self (mkCriteria (Some HISTOGRAM) None VNone None) w = Returns lh w
    ∧ li ++ lg ++ lt ++ lh ≡ₚ records (mocks w self)
    ∧ length li + length lg + length lt + length lh
      = length (records (mocks w self)).
Proof.
  do 4 eexists.
  rewrite !filter_records_run, !no_faults_untagged_query by done.
  repeat (split; [reflexivity|]).
  pose proof (filter_kind_partition (records (mocks w self))) as Hp.
  split; [done|].
  apply Permutation_length in Hp. rewrite !length_app in Hp. lia.
Qed.

Lemma for_print_run rs : ∀ out w, for_print rs out w = Returns (out ++ rs) w.
Proof.
  induction rs as [|r rs IH]; intros out w; simpl.
  - by rewrite app_nil_r.
  - unfold mbind, M_bind, print, mret, M_ret. rewrite IH.
    by rewrite <- app_assoc.
Qed.

(** X14 ([print_records] prints what [get_records] returns): for every
    store, [print_records] returns normally, adds to the output one line for
    each record of [self], in emission order, after what was printed before,
    and leaves the store unchanged; this holds also when some record has no
    tags, where a query with [tags] raises. *)
Theorem print_records_writes_all (self : ref) (out : list MetricsRecord)
    (w : World) :
  ∃ rs, get_records self w = Returns rs w
        ∧ print_records self out w = Returns (out ++ rs) w
        ∧ (print_records self out ≫= print_records self) w
          = Returns (out ++ rs ++ rs) w.
Proof.
  exists (records (mocks w self)). split; [done|].
  unfold print_records, get_records, get_attr_records, mbind, M_bind.
  rewrite !for_print_run. by rewrite <- app_assoc.
Qed.

(** X15 (what [has_record] answers): when the query omits [tags] or every
    record of [self] carries a list of tags, [has_record] returns a boolean,
    and it is [True] exactly when some record meets the criteria on kind,
    stat and value and has the supplied tags in some order. *)
Theorem has_record_iff_some_record (self : ref) (c : criteria) (w : World) :
  c_tags c = None ∨ all_tagged (records (mocks w self)) →
  ∃ b, has_record self c w = Returns b w
       ∧ (b = true ↔ ∃ r, r ∈ records (mocks w self)
                          ∧ meets_head c r ∧ meets_tags c r).
Proof.
  intros Hside. eexists. rewrite has_record_run.
  replace (existsb (faults c) (records (mocks w self))) with false.
  - split; [done|]. rewrite bool_of_list_true.
    by setoid_rewrite elem_of_filter_selects.
  - symmetry. destruct Hside as [Hc|Ht];
      [by apply no_faults_untagged_query|by apply no_faults_tagged].
Qed.

Lemma has_record_iff_some_record_witness :
  let c := mkCriteria (Some GAUGE) None (VInt 2) None in
  let w := world_of (emit_all 0 [CallIncr "a" None None;
                                 CallGauge "b" (VInt 2) None] fresh_world) in
  ∃ b, has_record 0 c w = Returns b w
       ∧ (b = true ↔ ∃ r, r ∈ records (mocks w 0)
                          ∧ meets_head c r ∧ meets_tags c r).
Proof.
  intros c w. apply (has_record_iff_some_record 0 c w). by left.
Defined.

(** A gauge set to [nan] is recorded, but a query for that value does not
    find it: [nan == nan] is false. *)
Example scenario_nan :
  let w := world_of (gauge 0 "g" VNaN None fresh_world) in
  get_records 0 w = Returns [mkRecord GAUGE "g" VNaN None] w
  ∧ has_record 0 (mkCriteria (Some GAUGE) (Some "g") VNaN None) w = Returns false w
  ∧ has_record 0 (mkCriteria (Some GAUGE) (Some "g") VNone None) w = Returns true w.
Proof. by vm_compute. Qed.
